(** * A shallow embedding of the Luau host in [src/tests/luau_test.cpp]

    The host creates a Luau VM, registers the lua-cjson entry points and two
    native capability functions, locks the sandbox, then compiles, loads and
    runs one script under a protected call with [debug.traceback] as error
    handler.

    The Luau compiler and VM are external to the repository: they appear as
    the fields of the record [luau_impl], which every definition that needs
    them takes as a section variable.  Everything the repository itself does
    (stack discipline, buffer handling, diagnostics, exit codes, argument
    validation) is written out below, following the C++ statement by
    statement. *)

From Stdlib Require Import String Ascii List ZArith Lia Bool.
From Stdlib Require Import DecimalString RelationClasses Morphisms.
From Stdlib Require Import PrimFloat.
From Stdlib Require FloatOps SpecFloat.
Import ListNotations.
Open Scope string_scope.

(** ** Values and VM state *)

(** Luau values, as far as the host observes them.  Numbers are IEEE
    doubles; tables are references into the table store of the VM. *)
Inductive val : Type :=
| VNil
| VBool (b : bool)
| VNum (n : float)
| VStr (s : string)
| VTable (t : nat)
| VFun (f : fn)
with fn : Type :=
| FNative (name : string)                 (* lua_pushcfunction(L, f, name) *)
| FChunk (chunkname : string) (bc : string). (* closure produced by luau_load *)

(** The decimal form of a C integer, as printed by the [%d] and [%llu]
    conversions of [printf]. *)
Definition num2str (n : Z) : string := NilZero.string_of_int (Z.to_int n).

(** The C view of a Lua string: the bytes before the first zero byte. *)
Fixpoint cstr (s : string) : string :=
  match s with
  | EmptyString => EmptyString
  | String c r => if Ascii.eqb c Ascii.zero then EmptyString else String c (cstr r)
  end.

Fixpoint assoc {A} (k : string) (l : list (string * A)) : option A :=
  match l with
  | [] => None
  | (k', v) :: r => if String.eqb k k' then Some v else assoc k r
  end.

Record vm : Type := mkVM {
  stack     : list val;                        (* bottom first; index 1 is the head *)
  globals   : list (string * val);             (* newest binding first *)
  tables    : nat -> list (string * val);
  sandboxed : bool;
  closed    : bool
}.

(** Events observable in a run, in program order.  Stack snapshots are
    recorded where the order of stack operations matters. *)
Inductive event : Type :=
| ENewState
| EOpenLibs
| ECall (name : string) (nargs : nat) (nresults : Z)
| ESetGlobal (name : string) (v : val)
| ESandbox
| EReadScript (path : string)
| ECompile (buf : nat) (optlevel debuglevel : Z)
| ELoad (chunkname : string) (buf : nat)
| EFree (buf : nat)
| EGetGlobal (name : string) (st : list val)
| EGetField (k : string) (st : list val)
| EPcall (nargs : nat) (nresults : Z) (errfunc : Z) (st : list val)
| EClose.

(** The process locale, one name per category. *)
Record locale : Type := mkLocale {
  lc_ctype : string; lc_numeric : string; lc_time : string;
  lc_collate : string; lc_monetary : string; lc_messages : string
}.

(** The categories of [setlocale]; [LC_ALL] names all of them at once. *)
Inductive lc_category : Type :=
| LC_ALL | LC_CTYPE | LC_NUMERIC | LC_TIME | LC_COLLATE | LC_MONETARY | LC_MESSAGES.

Record world : Type := mkW {
  L         : vm;
  cerr      : string;                 (* text written to std::cerr *)
  cerr_bad  : bool;                   (* badbit of std::cerr *)
  events    : list event;
  next_buf  : nat;                    (* next heap buffer id *)
  live      : list nat;               (* malloc'd buffers not yet freed *)
  fs        : string -> option string;(* files fopen/ifstream can open *)
  alloc_ok  : nat -> bool;            (* whether malloc(n) succeeds *)
  c_setlocale : lc_category -> string -> locale -> option locale;
                                      (* setlocale(cat, name) on the current
                                         locale: the new one, or NULL *)
  loc       : locale;
  open_files : nat                    (* FILE* handles not yet fclose'd *)
}.

Definition set_L (w : world) (v : vm) : world :=
  mkW v (cerr w) (cerr_bad w) (events w) (next_buf w) (live w) (fs w)
      (alloc_ok w) (c_setlocale w) (loc w) (open_files w).
Definition set_cerr (w : world) (s : string) (bad : bool) : world :=
  mkW (L w) s bad (events w) (next_buf w) (live w) (fs w)
      (alloc_ok w) (c_setlocale w) (loc w) (open_files w).
Definition add_event (w : world) (e : event) : world :=
  mkW (L w) (cerr w) (cerr_bad w) ((events w ++ [e])%list) (next_buf w) (live w) (fs w)
      (alloc_ok w) (c_setlocale w) (loc w) (open_files w).
Definition set_heap (w : world) (nb : nat) (lv : list nat) : world :=
  mkW (L w) (cerr w) (cerr_bad w) (events w) nb lv (fs w)
      (alloc_ok w) (c_setlocale w) (loc w) (open_files w).
Definition set_loc (w : world) (l : locale) : world :=
  mkW (L w) (cerr w) (cerr_bad w) (events w) (next_buf w) (live w) (fs w)
      (alloc_ok w) (c_setlocale w) l (open_files w).
Definition set_open_files (w : world) (n : nat) : world :=
  mkW (L w) (cerr w) (cerr_bad w) (events w) (next_buf w) (live w) (fs w)
      (alloc_ok w) (c_setlocale w) (loc w) n.

Definition set_stack (v : vm) (st : list val) : vm :=
  mkVM st (globals v) (tables v) (sandboxed v) (closed v).

(** ** A state monad with Lua errors

    [Thrown] is a Lua error in flight ([lua_error], [luaL_error]); it
    unwinds to the nearest protected call. *)
Inductive res (A : Type) : Type :=
| Done (a : A) (w : world)
| Thrown (e : val) (w : world).
Arguments Done {A}.
Arguments Thrown {A}.

Definition M (A : Type) : Type := world -> res A.

Definition ret {A} (a : A) : M A := fun w => Done a w.
Definition bind {A B} (m : M A) (f : A -> M B) : M B :=
  fun w => match m w with
           | Done a w' => f a w'
           | Thrown e w' => Thrown e w'
           end.
Definition get : M world := fun w => Done w w.
Definition modify (f : world -> world) : M unit := fun w => Done tt (f w).
Definition throw {A} (e : val) : M A := fun w => Thrown e w.

Notation "x <- m ;; k" := (bind m (fun x => k))
  (at level 61, m at next level, right associativity).
Notation "' p <- m ;; k" := (bind m (fun x => match x with p => k end))
  (at level 61, p pattern, m at next level, right associativity).
Notation "m ;;; k" := (bind m (fun _ => k))
  (at level 61, right associativity).

Definition emit (e : event) : M unit := modify (fun w => add_event w e).

(** ** std::cerr

    [cerr << p1 << p2 << ... << std::endl]: a null [const char*] sets
    badbit (libstdc++), after which nothing more is written. *)
Fixpoint cerr_pieces (out : string) (bad : bool) (ps : list (option string))
  : string * bool :=
  match ps with
  | [] => (out, bad)
  | p :: r =>
      if bad then (out, bad)
      else match p with
           | Some s => cerr_pieces (out ++ s) false r
           | None => (out, true)
           end
  end.

Definition cerr_line (ps : list (option string)) : M unit :=
  modify (fun w => let '(o, b) := cerr_pieces (cerr w) (cerr_bad w) ps in
                   let '(o', b') := cerr_pieces o b [Some (String "010" EmptyString)] in
                   set_cerr w o' b').

(** ** The stack API *)

Definition lua_gettop : M Z := fun w => Done (Z.of_nat (length (stack (L w)))) w.

(** Absolute position of an acceptable index (valid indices assumed, as
    Luau's [api_check] is off in release builds). *)
Definition abs_index (top idx : Z) : Z := (if 0 <? idx then idx else top + idx + 1)%Z.

Definition index2value (st : list val) (idx : Z) : val :=
  let p := abs_index (Z.of_nat (length st)) idx in
  match nth_error st (Z.to_nat (p - 1)%Z) with Some v => v | None => VNil end.

Definition modify_stack (f : list val -> list val) : M unit :=
  modify (fun w => set_L w (set_stack (L w) (f (stack (L w))))).

Definition lua_push (v : val) : M unit := modify_stack (fun st => (st ++ [v])%list).

(** [lua_pop(L, n)] is [lua_settop(L, -n-1)]. *)
Definition lua_pop (n : nat) : M unit :=
  modify_stack (fun st => firstn (length st - n) st).

Definition remove_at (st : list val) (p : nat) : list val :=
  (firstn (p - 1) st ++ skipn p st)%list.

Definition lua_remove (idx : Z) : M unit :=
  modify_stack (fun st =>
    remove_at st (Z.to_nat (abs_index (Z.of_nat (length st)) idx))).

(** [lua_insert]: move the top element into position [idx], shifting up
    the elements above it. *)
Definition insert_at (st : list val) (p : nat) : list val :=
  let init := removelast st in
  match last st VNil, st with
  | _, [] => []
  | v, _ => (firstn (p - 1) init ++ [v] ++ skipn (p - 1) init)%list
  end.

Definition lua_insert (idx : Z) : M unit :=
  modify_stack (fun st =>
    insert_at st (Z.to_nat (abs_index (Z.of_nat (length st)) idx))).

Definition replace_at (st : list val) (p : nat) (v : val) : list val :=
  (firstn (p - 1) st ++ [v] ++ skipn p st)%list.

Definition lua_getglobal (k : string) : M unit :=
  w <- get ;;
  emit (EGetGlobal k (stack (L w))) ;;;
  lua_push (match assoc k (globals (L w)) with Some v => v | None => VNil end).

Definition lua_close : M unit :=
  modify (fun w => set_L w (mkVM (stack (L w)) (globals (L w)) (tables (L w))
                                 (sandboxed (L w)) true)) ;;;
  emit EClose.

(** ** The external Luau implementation

    Compiler, loader and interpreter of Luau, and the lua-cjson entry
    points, are not part of the host: the host only calls them.  Their
    behaviour is a parameter of the model. *)
Record luau_impl : Type := mkLuau {
  (* luau_compile(source, size, options, &outsize): bytecode of a source
     text under (optimizationLevel, debugLevel); compile errors are encoded
     in the bytecode and reported by the loader *)
  compile_impl : string -> Z -> Z -> string;
  (* luau_load(L, chunkname, data, size, 0): a closure, or an error value *)
  load_impl : string -> string -> val + val;
  (* calling a Luau function value with arguments: its results, or the
     error it raised; the VM state afterwards *)
  run_impl : vm -> val -> list val -> (list val + val) * vm;
  (* calling the error handler of lua_pcall on an error value *)
  handle_impl : vm -> val -> val -> val;
  (* calling a native library function (lua-cjson's luaopen_* ) by name *)
  native_impl : string -> vm -> list val -> list val * vm;
  newstate_impl : vm;
  openlibs_impl : vm -> vm;
  sandbox_impl : vm -> vm;
  (* luaL_where(L, 1): the position prefix luaL_error puts on messages *)
  where_impl : vm -> string;
  (* luai_num2str: the string form lua_tostring gives a number *)
  num2str_impl : float -> string;
  (* the metatable __index lookup lua_getfield falls back to when the raw
     table has no such field or the value is not a table: the value found,
     or the error raised *)
  index_impl : vm -> val -> string -> val + val
}.

Definition LUA_MULTRET : Z := (-1)%Z.
Definition MAXSSIZE : Z := (2 ^ 30)%Z.
(** [luaO_pushvfstring] formats into a buffer of this many bytes. *)
Definition LUA_BUFFERSIZE : nat := 512.
Definition LUA_OK : Z := 0%Z.
Definition LUA_ERRRUN : Z := 2%Z.

(** The VM after a call made from [v]: the callee may have changed
    globals and tables; the stack is the caller's, as rebuilt by the API. *)
Definition after_call (v v' : vm) (st : list val) : vm :=
  mkVM st (globals v') (tables v') (sandboxed v) (closed v).

(** Results of a call adjusted to [nresults] ([LUA_MULTRET] keeps all). *)
Definition adjust_results (nresults : Z) (rs : list val) : list val :=
  if (nresults <? 0)%Z then rs
  else (firstn (Z.to_nat nresults) rs ++ repeat VNil (Z.to_nat nresults - length rs))%list.

Section Host.

Variable LU : luau_impl.

(** [lua_tostring] on a value: strings as they are, numbers converted,
    everything else [NULL]. *)
Definition tostring (v : val) : option string :=
  match v with
  | VStr s => Some s
  | VNum n => Some (num2str_impl LU n)
  | _ => None
  end.

(** [lua_tostring] converts a number in place to its string form. *)
Definition lua_tostring (idx : Z) : M (option string) :=
  w <- get ;;
  let st := stack (L w) in
  let v := index2value st idx in
  match v with
  | VNum n =>
      modify_stack (fun st =>
        replace_at st (Z.to_nat (abs_index (Z.of_nat (length st)) idx)) (VStr (num2str_impl LU n)))
  | _ => ret tt
  end ;;;
  ret (tostring v).

(** [lua_getfield]: a field present in the table itself is pushed;
    otherwise the value's metatable decides ([__index]), which may push a
    value or raise an error. *)
Definition lua_getfield (idx : Z) (k : string) : M unit :=
  w <- get ;;
  emit (EGetField k (stack (L w))) ;;;
  let v := index2value (stack (L w)) idx in
  match match v with
        | VTable t => assoc k (tables (L w) t)
        | _ => None
        end with
  | Some x => lua_push x
  | None =>
      match index_impl LU (L w) v k with
      | inl x => lua_push x
      | inr e => throw e
      end
  end.

(** [lua_pushlstring]: Luau refuses strings longer than [MAXSSIZE]
    ([luaS_newlstr] calls [luaM_toobig]). *)
Definition lua_pushlstring (s : string) : M unit :=
  if (Z.of_nat (String.length s) >? MAXSSIZE)%Z then
    throw (VStr "memory allocation error: block too big")
  else lua_push (VStr s).

(** [char* bytecode = luau_compile(...)]: a fresh heap buffer. *)
Definition luau_compile (source : string) (optlevel debuglevel : Z) : M (nat * string) :=
  w <- get ;;
  let b := next_buf w in
  modify (fun w => set_heap w (S b) (b :: live w)) ;;;
  emit (ECompile b optlevel debuglevel) ;;;
  ret (b, compile_impl LU source optlevel debuglevel).

Definition free (b : nat) : M unit :=
  modify (fun w => set_heap w (next_buf w) (remove Nat.eq_dec b (live w))) ;;;
  emit (EFree b).

(** [luau_load]: pushes the closure and returns 0, or pushes the error
    message and returns 1. *)
Definition luau_load (chunkname : string) (b : nat) (bc : string) : M Z :=
  emit (ELoad chunkname b) ;;;
  match load_impl LU chunkname bc with
  | inl f => lua_push f ;;; ret 0%Z
  | inr e => lua_push e ;;; ret 1%Z
  end.

(** [lua_pcall(L, nargs, nresults, errfunc)]: the function sits below its
    [nargs] arguments; on success its (adjusted) results replace function
    and arguments; on error the handler at [errfunc] (if non-zero) is
    applied to the error value, which replaces function and arguments. *)
Definition lua_pcall (nargs : nat) (nresults errfunc : Z) : M Z :=
  w <- get ;;
  let st := stack (L w) in
  let fpos := length st - nargs in
  let f := match nth_error st (fpos - 1) with Some v => v | None => VNil end in
  let base := firstn (fpos - 1) st in
  emit (EPcall nargs nresults errfunc st) ;;;
  match run_impl LU (L w) f (skipn fpos st) with
  | (inl rs, v') =>
      modify (fun w => set_L w (after_call (L w) v' (base ++ adjust_results nresults rs)%list)) ;;;
      ret LUA_OK
  | (inr e, v') =>
      let e' := if (errfunc =? 0)%Z then e
                else handle_impl LU v' (index2value st errfunc) e in
      modify (fun w => set_L w (after_call (L w) v' (base ++ [e'])%list)) ;;;
      ret LUA_ERRRUN
  end.

(** [lua_call(L, nargs, nresults)] on a native function: unprotected. *)
Definition lua_call (nargs : nat) (nresults : Z) : M unit :=
  w <- get ;;
  let st := stack (L w) in
  let fpos := length st - nargs in
  let base := firstn (fpos - 1) st in
  match nth_error st (fpos - 1) with
  | Some (VFun (FNative name)) =>
      emit (ECall name nargs nresults) ;;;
      let '(rs, v') := native_impl LU name (L w) (skipn fpos st) in
      modify (fun w => set_L w (after_call (L w) v' (base ++ adjust_results nresults rs)%list))
  | _ => throw (VStr "attempt to call a non-function")
  end.

Definition lua_pushcfunction (name : string) : M unit := lua_push (VFun (FNative name)).

(** [lua_setglobal]: pops the value on top into the global [name]. *)
Definition lua_setglobal (name : string) : M unit :=
  w <- get ;;
  let v := index2value (stack (L w)) (-1) in
  lua_pop 1 ;;;
  modify (fun w => set_L w (mkVM (stack (L w)) ((name, v) :: globals (L w))
                                 (tables (L w)) (sandboxed (L w)) (closed (L w)))) ;;;
  emit (ESetGlobal name v).

Definition luaL_newstate : M unit :=
  modify (fun w => set_L w (newstate_impl LU)) ;;; emit ENewState.

Definition luaL_openlibs : M unit :=
  modify (fun w => set_L w (openlibs_impl LU (L w))) ;;; emit EOpenLibs.

Definition luaL_sandbox : M unit :=
  modify (fun w => let v := sandbox_impl LU (L w) in
                   set_L w (mkVM (stack v) (globals v) (tables v) true (closed v))) ;;;
  emit ESandbox.

(** ** [exec_luau_source] (lines 27-78) *)
Definition exec_luau_source (chunkname source : string) : M Z :=
  '(bytecode, bc) <- luau_compile source 1%Z 1%Z ;;
  load_result <- luau_load (cstr chunkname) bytecode bc ;;
  free bytecode ;;;
  if negb (load_result =? 0)%Z then
    s <- lua_tostring (-1) ;;
    cerr_line [Some "Load error: "; s] ;;;
    lua_pop 1 ;;;
    lua_close ;;;
    ret 1%Z
  else
    lua_getglobal "debug" ;;;
    lua_getfield (-1) "traceback" ;;;
    lua_remove (-2) ;;;
    lua_insert (-2) ;;;
    top <- lua_gettop ;;
    let errfunc := (top - 1)%Z in
    r <- lua_pcall 0 LUA_MULTRET errfunc ;;
    if negb (r =? 0)%Z then
      s <- lua_tostring (-1) ;;
      cerr_line [Some "Runtime error: "; s] ;;;
      lua_pop 1 ;;;
      lua_close ;;;
      ret 1%Z
    else
      lua_remove errfunc ;;;
      ret 0%Z.

(** ** [load_file_to_string] (lines 14-25) *)
Definition load_file_to_string (filename : string) : M string :=
  emit (EReadScript filename) ;;;
  w <- get ;;
  match fs w (cstr filename) with
  | None =>
      cerr_line [Some "Failed to open file: "; Some filename] ;;;
      ret ""
  | Some data => ret data
  end.

(** ** [main] (lines 122-158); [argv] holds [argc] C strings.

    [setup] is lines 130-147 and [run_user] lines 149-157. *)
Definition setup : M unit :=
  luaL_newstate ;;;
  luaL_openlibs ;;;
  lua_pushcfunction "luaopen_cjson" ;;;
  lua_call 0 0 ;;;
  lua_pushcfunction "luaopen_cjson_safe" ;;;
  lua_call 0 0 ;;;
  lua_pushcfunction "luau_file_load" ;;;
  lua_setglobal "luau_file_load" ;;;
  lua_pushcfunction "luau_setlocale" ;;;
  lua_setglobal "luau_setlocale" ;;;
  luaL_sandbox.

Definition run_user (user_filename : string) : M Z :=
  user_src <- load_file_to_string user_filename ;;
  r <- exec_luau_source user_filename user_src ;;
  if negb (r =? 0)%Z then ret 1%Z
  else lua_close ;;; ret 0%Z.

Definition main (argv : list string) : M Z :=
  if (length argv <? 2)%nat then
    cerr_line [Some "Usage: "; nth_error argv 0; Some " script.luau"] ;;;
    ret 1%Z
  else
    setup ;;;
    run_user (match nth_error argv 1 with Some a => a | None => "" end).

(** ** The capability functions

    A native function runs with its arguments as the whole stack and
    returns how many values on top of the stack are its results. *)

(** [luaL_error(L, fmt, ...)]: raises the formatted message, prefixed by
    the caller's position; it does not return.  The message is formatted
    by [vsnprintf] into a buffer of [LUA_BUFFERSIZE] bytes, so at most
    [LUA_BUFFERSIZE - 1] of its bytes are kept. *)
Definition luaL_error {A} (msg : string) : M A :=
  w <- get ;;
  throw (VStr (where_impl LU (L w) ++ substring 0 (LUA_BUFFERSIZE - 1) msg)).

Definition dec (n : nat) : string := num2str (Z.of_nat n).

(** [luau_file_load] (lines 81-105) *)
Definition luau_file_load : M Z :=
  narg <- lua_gettop ;;
  if negb (narg =? 1)%Z then
    luaL_error ("luau_file_load: expected 1 argument (filename : string), got "
                ++ num2str narg ++ " arguments")
  else
  arg1 <- lua_tostring 1 ;;
  match arg1 with
  | None =>
      luaL_error "luau_file_load: expected 1 argument (filename : string), argument not a string"
  | Some a =>
      let name := cstr a in
      w <- get ;;
      match fs w name with                                  (* fopen(arg1, "rb") *)
      | None => luaL_error ("luau_file_load: can not open file " ++ name)
      | Some data =>
          modify (fun w => set_open_files w (S (open_files w))) ;;;
          let f_size := String.length data in              (* fseek END; ftell *)
          if negb (alloc_ok w f_size) then                  (* malloc(f_size) *)
            luaL_error ("luau_file_load: can not allocate " ++ dec f_size ++ " bytes")
          else
          let f_data := substring 0 f_size data in          (* fread from offset 0 *)
          let f_read := String.length f_data in
          if negb (f_read =? f_size)%nat then
            luaL_error ("luau_file_load: can only read " ++ dec f_read
                        ++ " bytes, wanted " ++ dec f_size ++ " bytes")
          else
          lua_pushlstring f_data ;;;
          modify (fun w => set_open_files w (pred (open_files w))) ;;; (* fclose *)
          ret 1%Z
      end
  end.

(** [luau_setlocale] (lines 108-120): [setlocale(LC_ALL, arg1)]. *)
Definition luau_setlocale : M Z :=
  narg <- lua_gettop ;;
  if negb (narg =? 1)%Z then
    luaL_error ("luau_setlocale: expected 1 argument (locale : string), got "
                ++ num2str narg ++ " arguments")
  else
  arg1 <- lua_tostring 1 ;;
  match arg1 with
  | None =>
      luaL_error "luau_setlocale: expected 1 argument (locale : string), argument not a string"
  | Some a =>
      let name := cstr a in
      w <- get ;;
      match c_setlocale w LC_ALL name (loc w) with
      | Some l =>
          modify (fun w => set_loc w l) ;;;
          ret 0%Z
      | None =>
          luaL_error ("luau_setlocale: can not set locale " ++ name)
      end
  end.

End Host.

(** ** A concrete Luau instance, to run the model on *)
Module Toy.

Definition debug_tbl : nat := 0.

(** The integer a double holds, if it is integral. *)
Definition float_to_Z (f : float) : option Z :=
  match FloatOps.Prim2SF f with
  | SpecFloat.S754_zero _ => Some 0%Z
  | SpecFloat.S754_finite s m e =>
      let sg := (if s then -1 else 1)%Z in
      if (0 <=? e)%Z then Some (sg * Zpos m * 2 ^ e)%Z
      else if (Zpos m mod 2 ^ (- e) =? 0)%Z then Some (sg * (Zpos m / 2 ^ (- e)))%Z
      else None
  | _ => None
  end.

(** Number formatting of the instance: integral numbers of at most 15
    digits in decimal, as Luau prints them; the instance's scripts use no
    other numbers. *)
Definition toy_num2str (f : float) : string :=
  match float_to_Z f with
  | Some z => if (Z.abs z <? 10 ^ 15)%Z then num2str z else "<number>"
  | None => "<number>"
  end.

Definition luau : luau_impl := {|
  compile_impl := fun src _ _ => src;
  load_impl := fun name bc =>
    match bc with
    | String "!" _ => inr (VStr (name ++ ":1: syntax error"))
    | _ => inl (VFun (FChunk name bc))
    end;
  run_impl := fun v f _ =>
    match f with
    | VFun (FChunk _ "error(1)") => (inr (VStr "script:1: boom"), v)
    | VFun (FChunk _ "return 1, 2") => (inl [VNum 1%float; VNum 2%float], v)
    | VFun (FChunk _ _) => (inl [], v)
    | _ => (inr (VStr "attempt to call a nil value"), v)
    end;
  handle_impl := fun _ _ e =>
    match e with
    | VStr s => VStr (s ++ String "010" "stacktrace:")
    | _ => e
    end;
  native_impl := fun _ v _ => ([VTable 1], v);
  newstate_impl := mkVM [] [] (fun _ => []) false false;
  openlibs_impl := fun v =>
    mkVM (stack v) (("debug", VTable debug_tbl) :: globals v)
         (fun t => if Nat.eqb t debug_tbl
                   then [("traceback", VFun (FNative "traceback"))] else tables v t)
         (sandboxed v) (closed v);
  sandbox_impl := fun v => v;
  where_impl := fun _ => "";
  num2str_impl := toy_num2str;
  (* strings index the string library, which has no field of the names
     used here; other non-tables have no metatable *)
  index_impl := fun _ v k =>
    match v with
    | VStr _ => inl VNil
    | VTable _ => inl VNil
    | _ => inr (VStr ("attempt to index value with '" ++ k ++ "'"))
    end
|}.

Definition files (name : string) : option string :=
  if String.eqb name "ok.luau" then Some ""
  else if String.eqb name "two.luau" then Some "return 1, 2"
  else if String.eqb name "bad.luau" then Some "!x"
  else if String.eqb name "err.luau" then Some "error(1)"
  else if String.eqb name "5" then Some "five"
  else if String.eqb name "data.bin" then Some (String "a" (String Ascii.zero "b"))
  else None.

(** The C library of the instance knows only the C locale, also under
    its alias [POSIX] and as the environment default [""]. *)
Definition toy_setlocale (c : lc_category) (name : string) (l : locale) : option locale :=
  if (String.eqb name "C" || String.eqb name "POSIX" || String.eqb name "")%bool
  then Some (mkLocale "C" "C" "C" "C" "C" "C")
  else None.

Definition w0 : world :=
  mkW (mkVM [] [] (fun _ => []) false false) "" false [] 0 [] files
      (fun _ => true) toy_setlocale (mkLocale "C" "C" "C" "C" "C" "C") 0.

(** The world after [luaL_openlibs]: [debug.traceback] is there. *)
Definition w_libs : world := set_L w0 (openlibs_impl luau (L w0)).

Definition traceback : val := VFun (FNative "traceback").

Fixpoint string_repeat (n : nat) (c : ascii) : string :=
  match n with
  | 0 => EmptyString
  | S n => String c (string_repeat n c)
  end.



(** A locale name of 600 bytes. *)
Definition long_name : string := string_repeat 600 "x".

(** A world where every [malloc] fails. *)
Definition w_nomem : world :=
  mkW (L w0) (cerr w0) (cerr_bad w0) (events w0) (next_buf w0) (live w0) (fs w0)
      (fun _ => false) (c_setlocale w0) (loc w0) (open_files w0).

End Toy.

(** ** Frame properties of computations

    [stable R m]: whatever [m] does, its final world is [R]-related to
    its initial one (also when a Lua error is in flight). *)
Definition res_world {A} (r : res A) : world :=
  match r with Done _ w => w | Thrown _ w => w end.

Definition stable (R : world -> world -> Prop) {A} (m : M A) : Prop :=
  forall w, R w (res_world (m w)).

(** Events appended only, each satisfying [P]. *)
Definition grows (P : event -> Prop) (w w' : world) : Prop :=
  exists r, events w' = (events w ++ r)%list /\ Forall P r.

(** ... and the heap buffers untouched. *)
Definition frame (P : event -> Prop) (w w' : world) : Prop :=
  grows P w w' /\ live w' = live w.

(** The setup actions of [main]. *)
Definition is_setup (e : event) : bool :=
  match e with
  | ENewState | EOpenLibs | ECall _ _ _ | ESetGlobal _ _ | ESandbox => true
  | _ => false
  end.

(** [lua_close] in the trace. *)
Definition is_close (e : event) : bool :=
  match e with EClose => true | _ => false end.

(** No session closed, and the session flag kept. *)
Definition open_kept (w w' : world) : Prop :=
  grows (fun e => is_close e = false) w w' /\ closed (L w') = closed (L w).

(** ... and nothing written to [std::cerr]. *)
Definition quiet (w w' : world) : Prop :=
  open_kept w w' /\ cerr w' = cerr w /\ cerr_bad w' = cerr_bad w.

(** The trace of [setup], lines 130-147 of [main]. *)
Definition setup_trace : list event :=
  [ENewState; EOpenLibs; ECall "luaopen_cjson" 0 0; ECall "luaopen_cjson_safe" 0 0;
   ESetGlobal "luau_file_load" (VFun (FNative "luau_file_load"));
   ESetGlobal "luau_setlocale" (VFun (FNative "luau_setlocale"));
   ESandbox].

(** * Proofs *)

(** ** Stack arithmetic at the shapes the host produces *)

Lemma index2value_top st x : index2value (st ++ [x])%list (-1) = x.
Proof.
  unfold index2value, abs_index. rewrite length_app. simpl.
  replace (Z.to_nat (Z.of_nat (length st + 1) + -1 + 1 - 1)) with (length st) by lia.
  rewrite nth_error_app2, Nat.sub_diag by lia. reflexivity.
Qed.

Lemma index2value_at st x r : index2value (st ++ x :: r)%list (Z.of_nat (length st) + 1) = x.
Proof.
  unfold index2value, abs_index.
  replace (0 <? Z.of_nat (length st) + 1)%Z with true by (symmetry; apply Z.ltb_lt; lia).
  replace (Z.to_nat (Z.of_nat (length st) + 1 - 1)) with (length st) by lia.
  rewrite nth_error_app2, Nat.sub_diag by lia. reflexivity.
Qed.

Lemma firstn_app_len {X} (st r : list X) k : firstn (length st + k) (st ++ r) = (st ++ firstn k r)%list.
Proof. rewrite firstn_app, firstn_all2, Nat.add_comm, Nat.add_sub by lia. reflexivity. Qed.

Lemma skipn_app_len {X} (st r : list X) k : skipn (length st + k) (st ++ r) = skipn k r.
Proof. rewrite skipn_app, skipn_all2, Nat.add_comm, Nat.add_sub by lia. reflexivity. Qed.

Lemma remove_m2 st a b c :
  remove_at (st ++ [a; b; c])%list (Z.to_nat (abs_index (Z.of_nat (length (st ++ [a; b; c])%list)) (-2)))
  = (st ++ [a; c])%list.
Proof.
  unfold remove_at, abs_index. rewrite length_app. simpl.
  replace (Z.to_nat (Z.of_nat (length st + 3) + -2 + 1)) with (length st + 2) by lia.
  replace (length st + 2 - 1) with (length st + 1) by lia.
  rewrite firstn_app_len, skipn_app_len, <- app_assoc. reflexivity.
Qed.

Lemma insert_at_snoc l v p :
  insert_at (l ++ [v])%list p = (firstn (p - 1) l ++ [v] ++ skipn (p - 1) l)%list.
Proof.
  unfold insert_at. rewrite removelast_last, last_last.
  destruct (l ++ [v])%list eqn:E; [destruct l; discriminate | reflexivity].
Qed.

Lemma insert_m2 st a b :
  insert_at (st ++ [a; b])%list (Z.to_nat (abs_index (Z.of_nat (length (st ++ [a; b])%list)) (-2)))
  = (st ++ [b; a])%list.
Proof.
  unfold abs_index. rewrite length_app. simpl.
  replace (Z.to_nat (Z.of_nat (length st + 2) + -2 + 1)) with (length st + 1) by lia.
  replace (st ++ [a; b])%list with ((st ++ [a]) ++ [b])%list by (rewrite <- app_assoc; reflexivity).
  rewrite insert_at_snoc.
  replace (length st + 1 - 1) with (length st + 0) by lia.
  rewrite firstn_app_len, skipn_app_len, <- app_assoc. reflexivity.
Qed.

Lemma remove_at_pos st x r :
  remove_at (st ++ x :: r)%list (Z.to_nat (abs_index (Z.of_nat (length (st ++ x :: r)%list))
                                                    (Z.of_nat (length st) + 1))) = (st ++ r)%list.
Proof.
  unfold remove_at, abs_index.
  replace (0 <? Z.of_nat (length st) + 1)%Z with true by (symmetry; apply Z.ltb_lt; lia).
  replace (Z.to_nat (Z.of_nat (length st) + 1)) with (length st + 1) by lia.
  replace (length st + 1 - 1) with (length st + 0) by lia.
  rewrite firstn_app_len, skipn_app_len. simpl. rewrite app_nil_r. reflexivity.
Qed.

Lemma pop1 (st : list val) (x : val) : firstn (length (st ++ [x])%list - 1) (st ++ [x])%list = st.
Proof.
  rewrite length_app. simpl. replace (length st + 1 - 1) with (length st + 0) by lia.
  rewrite firstn_app_len. simpl. apply app_nil_r.
Qed.


Lemma pcall_fn (st : list val) a b :
  nth_error (st ++ [a; b])%list (length (st ++ [a; b])%list - 0 - 1) = Some b.
Proof.
  rewrite length_app. simpl. replace (length st + 2 - 0 - 1) with (length st + 1) by lia.
  rewrite nth_error_app2 by lia. replace (length st + 1 - length st) with 1 by lia. reflexivity.
Qed.

Lemma pcall_args (st : list val) a b :
  skipn (length (st ++ [a; b])%list - 0) (st ++ [a; b])%list = [].
Proof. rewrite Nat.sub_0_r. apply skipn_all. Qed.

Lemma pcall_base (st : list val) a b :
  firstn (length (st ++ [a; b])%list - 0 - 1) (st ++ [a; b])%list = (st ++ [a])%list.
Proof.
  rewrite length_app. simpl. replace (length st + 2 - 0 - 1) with (length st + 1) by lia.
  rewrite firstn_app_len. reflexivity.
Qed.

Lemma gettop_m1 (st : list val) a b :
  (Z.of_nat (length (st ++ [a; b])%list) - 1 = Z.of_nat (length st) + 1)%Z.
Proof. rewrite length_app. simpl. lia. Qed.

(** ** Strings *)

Lemma str_app_assoc (a b c : string) : ((a ++ b) ++ c) = (a ++ b ++ c).
Proof. induction a as [|x a IH]; simpl; [reflexivity | now rewrite IH]. Qed.


Lemma substring_short (s : string) k : String.length s <= k -> substring 0 k s = s.
Proof.
  revert k; induction s as [|c s IH]; intros [|k] H; simpl in *; try lia; try reflexivity.
  rewrite IH by lia. reflexivity.
Qed.

Lemma substring_length (s : string) k : String.length (substring 0 k s) <= k.
Proof.
  revert k; induction s as [|c s IH]; intros [|k]; simpl; try lia.
  specialize (IH k). lia.
Qed.

Lemma str_length_app (a b : string) : String.length (a ++ b) = String.length a + String.length b.
Proof. induction a as [|c a IH]; simpl; [reflexivity | now rewrite IH]. Qed.

Lemma string_repeat_length n c : String.length (Toy.string_repeat n c) = n.
Proof. induction n as [|n IH]; simpl; [reflexivity | now rewrite IH]. Qed.

Section Stable.
Variable R : world -> world -> Prop.
Context `{PreOrder world R}.

Lemma stable_ret {A} (a : A) : stable R (ret a).
Proof. intro w. simpl. reflexivity. Qed.

Lemma stable_get : stable R get.
Proof. intro w. simpl. reflexivity. Qed.

Lemma stable_throw {A} e : stable R (@throw A e).
Proof. intro w. simpl. reflexivity. Qed.

Lemma stable_modify f : (forall w, R w (f w)) -> stable R (modify f).
Proof. intros Hf w. apply Hf. Qed.

Lemma stable_bind {A B} (m : M A) (f : A -> M B) :
  stable R m -> (forall a, stable R (f a)) -> stable R (bind m f).
Proof.
  intros Hm Hf w. unfold bind. specialize (Hm w).
  destruct (m w) as [a w'|e w']; simpl in *; [| exact Hm].
  transitivity w'; [exact Hm | apply Hf].
Qed.

End Stable.

#[export] Instance grows_preorder P : PreOrder (grows P).
Proof.
  split.
  - intro w. exists []. rewrite app_nil_r. split; [reflexivity | constructor].
  - intros w1 w2 w3 [r1 [E1 F1]] [r2 [E2 F2]]. exists (r1 ++ r2)%list.
    rewrite E2, E1, app_assoc. split; [reflexivity | now apply Forall_app].
Qed.

#[export] Instance frame_preorder P : PreOrder (frame P).
Proof.
  split.
  - intro w. split; [reflexivity | reflexivity].
  - intros w1 w2 w3 [G1 L1] [G2 L2]. split; [etransitivity; eassumption | congruence].
Qed.

(** Side conditions of [stable] on the basic world updates. *)
Ltac side :=
  repeat match goal with |- context [cerr_pieces ?a ?b ?c] => destruct (cerr_pieces a b c) end;
  cbv [grows frame set_L set_cerr add_event set_heap set_loc set_open_files
       events live];
  first
    [ split; [ exists []; rewrite app_nil_r; split; [reflexivity | constructor] | reflexivity ]
    | split; [ eexists [_]; split; [reflexivity | repeat constructor] | reflexivity ]
    | exists []; rewrite app_nil_r; split; [reflexivity | constructor]
    | eexists [_]; split; [reflexivity | repeat constructor] ].

Ltac stab :=
  repeat first
    [ apply stable_bind; [ typeclasses eauto | | intro ]
    | apply stable_ret; typeclasses eauto
    | apply stable_get; typeclasses eauto
    | apply stable_throw; typeclasses eauto
    | apply stable_modify; intro; side
    | match goal with |- stable _ (match ?x with _ => _ end) => destruct x end
    | match goal with |- stable _ (if ?x then _ else _) => destruct x end
    | progress cbv zeta
    | progress unfold exec_luau_source, load_file_to_string, run_user, luau_compile,
        luau_load, free, lua_pcall, lua_call, lua_setglobal, lua_pushcfunction,
        luaL_newstate, luaL_openlibs, luaL_sandbox, lua_getglobal, lua_getfield,
        lua_remove, lua_insert, lua_gettop, lua_tostring, lua_pop, lua_push,
        lua_close, cerr_line, modify_stack, emit, luaL_error, lua_pushlstring ].

Ltac run := cbv beta iota zeta delta [exec_luau_source bind ret get modify emit throw
  luau_compile luau_load free lua_getglobal lua_getfield lua_remove lua_insert lua_gettop
  lua_pcall lua_tostring cerr_line lua_pop lua_close modify_stack lua_push set_L set_stack
  add_event set_heap set_cerr L stack globals tables sandboxed closed cerr cerr_bad events
  next_buf live fs alloc_ok c_setlocale loc open_files LUA_MULTRET LUA_OK LUA_ERRRUN
  negb Z.eqb Pos.eqb after_call lua_call lua_pushcfunction lua_setglobal luaL_newstate
  luaL_openlibs luaL_sandbox setup run_user load_file_to_string cerr_pieces tostring].

Lemma run_user_stable LU fname :
  stable (grows (fun e => is_setup e = false)) (run_user LU fname).
Proof. stab. Qed.


(** ** Evaluating the pipeline *)

Lemma bind_Done {A B} (m : M A) (f : A -> M B) w a w' :
  m w = Done a w' -> bind m f w = f a w'.
Proof. unfold bind. now intros ->. Qed.

Lemma errfunc_match n (A : Type) (x y : A) :
  match (Z.of_nat n + 1)%Z with 0%Z => x | Zpos _ => y | Zneg _ => y end = y.
Proof. destruct (Z.of_nat n + 1)%Z eqn:E; [lia | reflexivity | lia]. Qed.

Lemma replace_top (l : list val) x v :
  replace_at (l ++ [x])%list (Z.to_nat (abs_index (Z.of_nat (length (l ++ [x])%list)) (-1))) v
  = (l ++ [v])%list.
Proof.
  unfold replace_at, abs_index. rewrite length_app. simpl.
  replace (Z.to_nat (Z.of_nat (length l + 1) + -1 + 1)) with (length l + 1) by lia.
  replace (length l + 1 - 1) with (length l + 0) by lia.
  rewrite firstn_app_len, skipn_app_len. simpl. rewrite app_nil_r. reflexivity.
Qed.

Lemma pop1_2 (st : list val) a b :
  firstn (length (st ++ [a; b])%list - 1) (st ++ [a; b])%list = (st ++ [a])%list.
Proof.
  replace (st ++ [a; b])%list with ((st ++ [a]) ++ [b])%list by (rewrite <- app_assoc; reflexivity).
  apply pop1.
Qed.

(** From the load up to the return of the protected call. *)
Ltac to_pcall Hload Hdbg Htb :=
  run; rewrite Hload; run;
  rewrite Hdbg, index2value_top, Htb; run;
  rewrite <- !app_assoc; cbn [app];
  rewrite remove_m2, insert_m2, pcall_fn, pcall_args, pcall_base, gettop_m1.

(** The error value [e] on top is read, printed, popped; the session closed. *)
Ltac report e :=
  destruct e eqn:?; run; rewrite ?replace_top; run; rewrite ?pop1; run.

(** *** C10 *)

(** C10: on the success path of [exec_luau_source] (the protected call
    returns 0), only the error handler's slot is removed: the stack ends as
    it was before the run followed by every value the chunk returned
    ([LUA_MULTRET]), no diagnostic is written, the session is not closed
    (no [EClose], flag unchanged) and the result is 0. *)
Theorem exec_success_keeps_results :
  forall LU w name src f t tb rs v',
  load_impl LU (cstr name) (compile_impl LU src 1 1) = inl f ->
  assoc "debug" (globals (L w)) = Some (VTable t) ->
  assoc "traceback" (tables (L w) t) = Some tb ->
  run_impl LU (set_stack (L w) (stack (L w) ++ [tb; f])%list) f [] = (inl rs, v') ->
  exists w', exec_luau_source LU name src w = Done 0%Z w'
    /\ stack (L w') = (stack (L w) ++ rs)%list
    /\ closed (L w') = closed (L w)
    /\ cerr w' = cerr w
    /\ exists tr, events w' = (events w ++ tr)%list /\ ~ In EClose tr.
Proof.
  intros LU [[st g tbl sb cl] ce cb ev nb lv fs ao lo lc of] name src f t tb rs v'
         Hload Hdbg Htb Hrun.
  cbv [set_stack L stack globals tables sandboxed closed] in *.
  to_pcall Hload Hdbg Htb. rewrite Hrun. run.
  rewrite <- app_assoc. cbn [app]. rewrite remove_at_pos.
  eexists. split; [reflexivity |].
  split; [reflexivity |]. split; [reflexivity |]. split; [reflexivity |].
  eexists. split; [reflexivity |]. simpl. intuition discriminate.
Qed.

(** *** C5 *)

(** C5: after a successful load, [debug.traceback] is looked up in the
    globals only once the chunk is on top of the stack, ends directly
    beneath the chunk, and its fixed position ([top - 1]) is the
    [errfunc] of the protected call; that slot is removed on the success
    path only (on failure it is still on the stack when the session is
    closed). *)
Theorem exec_error_handler_placement :
  forall LU w name src f t tb out v',
  load_impl LU (cstr name) (compile_impl LU src 1 1) = inl f ->
  assoc "debug" (globals (L w)) = Some (VTable t) ->
  assoc "traceback" (tables (L w) t) = Some tb ->
  run_impl LU (set_stack (L w) (stack (L w) ++ [tb; f])%list) f [] = (out, v') ->
  let st := stack (L w) in
  let b := next_buf w in
  let errfunc := (Z.of_nat (length st) + 1)%Z in
  exists r w' tail,
    exec_luau_source LU name src w = Done r w'
    /\ events w' = (events w ++
         [ECompile b 1 1; ELoad (cstr name) b; EFree b;
          EGetGlobal "debug" (st ++ [f]);
          EGetField "traceback" (st ++ [f; VTable t]);
          EPcall 0 LUA_MULTRET errfunc (st ++ [tb; f])] ++ tail)%list
    /\ index2value (st ++ [tb; f])%list errfunc = tb
    /\ match out with
       | inl rs => r = 0%Z /\ stack (L w') = (st ++ rs)%list
       | inr _ => r = 1%Z /\ stack (L w') = (st ++ [tb])%list
       end.
Proof.
  intros LU [[st g tbl sb cl] ce cb ev nb lv fs ao lo lc of] name src f t tb out v'
         Hload Hdbg Htb Hrun.
  cbv [set_stack L stack globals tables sandboxed closed next_buf] in *.
  to_pcall Hload Hdbg Htb. rewrite Hrun.
  destruct out as [rs | e]; run.
  - rewrite <- app_assoc. cbn [app]. rewrite remove_at_pos.
    do 3 eexists. split; [reflexivity |].
    split; [reflexivity |].
    split; [apply index2value_at | split; reflexivity].
  - rewrite errfunc_match, index2value_at, index2value_top.
    destruct cb; report (handle_impl LU v' tb e);
      rewrite <- ?app_assoc; cbn [app]; rewrite ?pop1_2.
    all: do 3 eexists; (split; [reflexivity |]); (split; [reflexivity |]);
      (split; [first [apply index2value_at | reflexivity] | split; reflexivity]).
Qed.

(** *** C3 *)

Lemma cerr_line3 ce p s :
  (((ce ++ p) ++ s) ++ String "010" EmptyString) = ce ++ p ++ s ++ String "010" EmptyString.
Proof. now rewrite !str_app_assoc. Qed.

(** C3: a load failure and a runtime failure of the protected call are
    each reported by exactly one line on [std::cerr], [Load error: ] resp.
    [Runtime error: ] followed verbatim by the VM's error string; the error
    value is popped, the session is closed, and [exec_luau_source] returns 1,
    which [main] returns as exit status.  A chunk that failed to load is
    never called (no [EPcall]). *)
Theorem exec_vm_failure_reported :
  forall LU,
  (forall w name src e s,
     cerr_bad w = false ->
     load_impl LU (cstr name) (compile_impl LU src 1 1) = inr e ->
     tostring LU e = Some s ->
     let b := next_buf w in
     exists w', exec_luau_source LU name src w = Done 1%Z w'
       /\ cerr w' = cerr w ++ "Load error: " ++ s ++ String "010" EmptyString
       /\ stack (L w') = stack (L w)
       /\ closed (L w') = true
       /\ events w' = (events w ++ [ECompile b 1 1; ELoad (cstr name) b; EFree b; EClose])%list)
  /\ (forall w name src f t tb e v' s,
     cerr_bad w = false ->
     load_impl LU (cstr name) (compile_impl LU src 1 1) = inl f ->
     assoc "debug" (globals (L w)) = Some (VTable t) ->
     assoc "traceback" (tables (L w) t) = Some tb ->
     run_impl LU (set_stack (L w) (stack (L w) ++ [tb; f])%list) f [] = (inr e, v') ->
     tostring LU (handle_impl LU v' tb e) = Some s ->
     exists w', exec_luau_source LU name src w = Done 1%Z w'
       /\ cerr w' = cerr w ++ "Runtime error: " ++ s ++ String "010" EmptyString
       /\ stack (L w') = (stack (L w) ++ [tb])%list
       /\ closed (L w') = true
       /\ exists tr, events w' = (events w ++ tr ++ [EClose])%list)
  /\ (forall fname w src w1 w',
     load_file_to_string fname w = Done src w1 ->
     exec_luau_source LU fname src w1 = Done 1%Z w' ->
     run_user LU fname w = Done 1%Z w').
Proof.
  intro LU. split; [| split].
  - intros [[st g tbl sb cl] ce cb ev nb lv fs ao lo lc of] name src e s Hcb Hload Hs.
    cbv [set_stack L stack globals tables sandboxed closed next_buf cerr_bad] in *. subst cb.
    run. rewrite Hload. run. rewrite index2value_top.
    destruct e; try discriminate; injection Hs as <-; run.
    all: rewrite ?replace_top; run; rewrite ?pop1;
      (eexists; split; [reflexivity |]); cbv beta iota.
    all: (split; [rewrite !str_app_assoc; reflexivity |]).
    all: (split; [reflexivity |]); (split; [reflexivity |]).
    all: rewrite <- !app_assoc; reflexivity.
  - intros [[st g tbl sb cl] ce cb ev nb lv fs ao lo lc of] name src f t tb e v' s
           Hcb Hload Hdbg Htb Hrun Hs.
    cbv [set_stack L stack globals tables sandboxed closed next_buf cerr_bad] in *. subst cb.
    to_pcall Hload Hdbg Htb. rewrite Hrun. run.
    rewrite errfunc_match, index2value_at, index2value_top.
    destruct (handle_impl LU v' tb e); try discriminate; injection Hs as <-; run.
    all: rewrite ?replace_top; run; rewrite ?pop1;
      (eexists; split; [reflexivity |]); cbv beta iota.
    all: (split; [rewrite !str_app_assoc; reflexivity |]).
    all: (split; [reflexivity |]); (split; [reflexivity |]).
    all: rewrite <- !app_assoc; eexists; reflexivity.
  - intros fname w src w1 w' Hl He. unfold run_user.
    rewrite (bind_Done _ _ _ _ _ Hl), (bind_Done _ _ _ _ _ He). reflexivity.
Qed.


(** *** C9 *)

Lemma compile_Done LU src o d w :
  luau_compile LU src o d w
  = Done (next_buf w, compile_impl LU src o d)
      (add_event (set_heap w (S (next_buf w)) (next_buf w :: live w)) (ECompile (next_buf w) o d)).
Proof. reflexivity. Qed.

Lemma load_Done LU c b bc w :
  exists r w', luau_load LU c b bc w = Done r w'
    /\ events w' = (events w ++ [ELoad c b])%list /\ live w' = live w.
Proof.
  unfold luau_load. destruct (load_impl LU c bc);
    do 2 eexists; (split; [reflexivity |]); split; reflexivity.
Qed.

Lemma free_Done b w :
  exists w', free b w = Done tt w'
    /\ events w' = (events w ++ [EFree b])%list /\ live w' = remove Nat.eq_dec b (live w).
Proof. eexists; (split; [reflexivity |]); split; reflexivity. Qed.

(** C9: [exec_luau_source] compiles into a fresh buffer [b], hands it to
    the loader and frees it as the very next step, before anything looks at
    the load result, whichever way the load went: the trace starts with
    compile, load, free of [b], and at the end [b] is no longer live (the
    rest of the run does not touch the heap buffers). *)
Theorem exec_frees_bytecode_after_load :
  forall LU name src w,
  let b := next_buf w in
  let w' := res_world (exec_luau_source LU name src w) in
  (exists rest, events w' = (events w ++ [ECompile b 1 1; ELoad (cstr name) b; EFree b] ++ rest)%list)
  /\ live w' = remove Nat.eq_dec b (b :: live w)
  /\ ~ In b (live w').
Proof.
  intros LU name src w b w'. subst w' b. unfold exec_luau_source.
  rewrite (bind_Done _ _ _ _ _ (compile_Done LU src 1 1 w)). cbv beta iota.
  destruct (load_Done LU (cstr name) (next_buf w) (compile_impl LU src 1 1)
              (add_event (set_heap w (S (next_buf w)) (next_buf w :: live w))
                 (ECompile (next_buf w) 1 1))) as [r [w2 [E2 [Ev2 Lv2]]]].
  rewrite (bind_Done _ _ _ _ _ E2).
  destruct (free_Done (next_buf w) w2) as [w3 [E3 [Ev3 Lv3]]].
  rewrite (bind_Done _ _ _ _ _ E3).
  match goal with |- context [res_world (?k w3)] =>
    assert (Hk : stable (frame (fun _ => True)) k) by stab;
    destruct (Hk w3) as [[rest [Er _]] Hl]
  end.
  rewrite Er, Hl, Lv3, Ev3, Lv2, Ev2. cbv [add_event set_heap events live].
  split; [exists rest; rewrite <- !app_assoc; reflexivity |].
  split; [reflexivity | apply remove_In].
Qed.

(** *** C6 *)

Lemma nth_snoc (l : list val) x : nth_error (l ++ [x])%list (length (l ++ [x])%list - 0 - 1) = Some x.
Proof. rewrite length_app. simpl. replace (length l + 1 - 0 - 1) with (length l) by lia.
  rewrite nth_error_app2, Nat.sub_diag by lia. reflexivity. Qed.

Lemma pop_snoc0 (l : list val) x : firstn (length (l ++ [x])%list - 0 - 1) (l ++ [x])%list = l.
Proof. rewrite Nat.sub_0_r. apply pop1. Qed.

Lemma skip_snoc0 (l : list val) x : skipn (length (l ++ [x])%list - 0) (l ++ [x])%list = [].
Proof. rewrite Nat.sub_0_r. apply skipn_all. Qed.

Lemma adjust0 rs : adjust_results 0 rs = [].
Proof. reflexivity. Qed.

Lemma setup_Done LU w :
  exists w', setup LU w = Done tt w' /\ events w' = (events w ++ setup_trace)%list.
Proof.
  run. destruct (openlibs_impl LU (newstate_impl LU)) as [st g t sb cl].
  rewrite nth_snoc, skip_snoc0.
  destruct (native_impl LU "luaopen_cjson" _ []) as [rs v']. run.
  rewrite pop_snoc0, adjust0, app_nil_r, nth_snoc, skip_snoc0.
  destruct (native_impl LU "luaopen_cjson_safe" _ []) as [rs' v'']. run.
  rewrite pop_snoc0, adjust0, app_nil_r, !index2value_top, ?pop1.
  eexists; split; [reflexivity |].
  destruct w; cbv [events setup_trace]. rewrite <- !app_assoc. reflexivity.
Qed.

(** C6: every run of [main] that gets past the argument check starts with
    the setup trace: VM creation, library opening, one zero-argument,
    zero-result call each of [luaopen_cjson] and [luaopen_cjson_safe], the
    bindings of [luau_file_load] and [luau_setlocale] under those global
    names, and last the sandbox lock; nothing after it (reading, compiling,
    loading and running the user script) is a setup action. *)
Theorem main_setup_before_script :
  forall LU argv w,
  (2 <= length argv)%nat ->
  exists rest,
    events (res_world (main LU argv w)) = (events w ++ setup_trace ++ rest)%list
    /\ Forall (fun e => is_setup e = false) rest.
Proof.
  intros LU argv w Hlen. unfold main.
  replace (length argv <? 2)%nat with false by (symmetry; apply Nat.ltb_ge; exact Hlen).
  destruct (setup_Done LU w) as [w1 [E1 Ev1]].
  rewrite (bind_Done _ _ _ _ _ E1).
  destruct (run_user_stable LU (match nth_error argv 1 with Some a => a | None => "" end) w1)
    as [rest [Er F]].
  exists rest. rewrite Er, Ev1, app_assoc. split; [reflexivity | exact F].
Qed.

Lemma main_setup_before_script_witness :
  (2 <= length ["luau_test"; "two.luau"])%nat /\
  exists rest,
    events (res_world (main Toy.luau ["luau_test"; "two.luau"] Toy.w0))
    = (events Toy.w0 ++ setup_trace ++ rest)%list
    /\ Forall (fun e => is_setup e = false) rest.
Proof.
  split; [simpl; lia |].
  apply (main_setup_before_script Toy.luau ["luau_test"; "two.luau"] Toy.w0). simpl. lia.
Defined.

(** *** C7 *)







(** *** C8 *)

(** C8 (counterexample): a rejected locale name of 600 bytes is not
    quoted in full: [luaL_error] formats its message into a buffer of
    [LUA_BUFFERSIZE] bytes, which cuts it after 511 bytes. *)
Lemma setlocale_long_name_truncated :
  let msg := substring 0 (LUA_BUFFERSIZE - 1)
               ("luau_setlocale: can not set locale " ++ Toy.long_name) in
  luau_setlocale Toy.luau (set_L Toy.w0 (set_stack (L Toy.w0) [VStr Toy.long_name]))
  = Thrown (VStr msg) (set_L Toy.w0 (set_stack (L Toy.w0) [VStr Toy.long_name]))
  /\ ~ (exists p q, msg = p ++ Toy.long_name ++ q).
Proof.
  intro msg. split; [vm_compute; reflexivity |].
  intros [p [q E]].
  pose proof (substring_length ("luau_setlocale: can not set locale " ++ Toy.long_name)
                (LUA_BUFFERSIZE - 1)) as Hm.
  fold msg in Hm. rewrite E, !str_length_app in Hm.
  unfold Toy.long_name in Hm. rewrite string_repeat_length in Hm.
  unfold LUA_BUFFERSIZE in Hm. lia.
Qed.

(** C8 (amended): [luau_setlocale] called with one string calls
    [setlocale(LC_ALL, name)], which sets every category of the process
    locale; when the C library accepts the name, the locale becomes what it
    returns and no values are returned.  When it rejects the name, a Lua
    error is raised whose message is the caller's position followed by
    [luau_setlocale: can not set locale <name>] cut to 511 bytes, which
    ends with the name in full when the name has at most 476 bytes; nothing
    changes. *)
Theorem setlocale_all_categories :
  forall LU w a,
  stack (L w) = [VStr a] ->
  let n := cstr a in
  let msg := where_impl LU (L w)
             ++ substring 0 (LUA_BUFFERSIZE - 1) ("luau_setlocale: can not set locale " ++ n) in
  (forall l, c_setlocale w LC_ALL n (loc w) = Some l ->
     exists w', luau_setlocale LU w = Done 0%Z w'
       /\ loc w' = l
       /\ L w' = L w /\ cerr w' = cerr w /\ events w' = events w)
  /\ (c_setlocale w LC_ALL n (loc w) = None ->
     luau_setlocale LU w = Thrown (VStr msg) w
     /\ (String.length n <= 476 -> exists p, msg = p ++ n)).
Proof.
  intros LU [[st g tbl sb cl] ce cb ev nb lv fsys ao lo lc of] a Hst n msg.
  cbv [L stack c_setlocale loc] in *. subst st.
  split.
  - intros l Hl. cbv [luau_setlocale luaL_error set_loc]. run.
    cbn -[String.append num2str substring LUA_BUFFERSIZE cstr]. fold n. rewrite Hl.
    eexists; split; [reflexivity |]. repeat split.
  - intros Hl. split.
    + cbv [luau_setlocale luaL_error set_loc]. run.
      cbn -[String.append num2str substring LUA_BUFFERSIZE cstr]. fold n. rewrite Hl.
      reflexivity.
    + intros Hn. subst msg.
      rewrite substring_short
        by (rewrite str_length_app; simpl String.length; unfold LUA_BUFFERSIZE; lia).
      exists (where_impl LU (mkVM [VStr a] g tbl sb cl) ++ "luau_setlocale: can not set locale ").
      rewrite str_app_assoc. reflexivity.
Qed.

Lemma setlocale_all_categories_witness :
  stack (L (set_L Toy.w0 (set_stack (L Toy.w0) [VStr "POSIX"]))) = [VStr "POSIX"]
  /\ c_setlocale Toy.w0 LC_ALL (cstr "POSIX") (loc Toy.w0) = Some (mkLocale "C" "C" "C" "C" "C" "C")
  /\ c_setlocale Toy.w0 LC_ALL (cstr "xx_YY") (loc Toy.w0) = None
  /\ String.length (cstr "xx_YY") <= 476
  /\ (exists w', luau_setlocale Toy.luau (set_L Toy.w0 (set_stack (L Toy.w0) [VStr "POSIX"]))
                 = Done 0%Z w'
       /\ loc w' = mkLocale "C" "C" "C" "C" "C" "C"
       /\ L w' = L (set_L Toy.w0 (set_stack (L Toy.w0) [VStr "POSIX"]))
       /\ cerr w' = cerr Toy.w0 /\ events w' = events Toy.w0)
  /\ (exists p, "" ++ substring 0 (LUA_BUFFERSIZE - 1)
                        ("luau_setlocale: can not set locale " ++ cstr "xx_YY")
                = p ++ cstr "xx_YY").
Proof.
  split; [reflexivity |]. split; [vm_compute; reflexivity |]. split; [vm_compute; reflexivity |].
  split; [vm_compute; lia |]. split.
  - apply (proj1 (setlocale_all_categories Toy.luau
                    (set_L Toy.w0 (set_stack (L Toy.w0) [VStr "POSIX"])) "POSIX" eq_refl)).
    vm_compute; reflexivity.
  - apply (proj2 (proj2 (setlocale_all_categories Toy.luau
                    (set_L Toy.w0 (set_stack (L Toy.w0) [VStr "xx_YY"])) "xx_YY" eq_refl)
                    ltac:(vm_compute; reflexivity))).
    vm_compute; lia.
Defined.

(** *** C4 *)

(** C4 (counterexample): a single number argument is not rejected:
    [lua_tostring] converts it in place, and [luau_file_load(5)] reads
    the file named [5]. *)
Lemma file_load_number_arg_accepted :
  exists w', luau_file_load Toy.luau (set_L Toy.w0 (set_stack (L Toy.w0) [VNum 5%float]))
             = Done 1%Z w'
    /\ stack (L w') = [VStr "5"; VStr "five"].
Proof.
  eexists; split; [vm_compute; reflexivity |]. reflexivity.
Qed.

Lemma gettop_ne1 (st : list val) : length st <> 1 -> (Z.of_nat (length st) =? 1)%Z = false.
Proof. intro H. apply Z.eqb_neq. lia. Qed.

(** C4 (amended): with an argument count other than one, or one argument
    that is neither a string nor a number, both capability functions raise
    a Lua error ([luaL_error], caught by an enclosing [lua_pcall]) and leave
    the world as it was; a number argument is accepted and behaves as the string
    Luau gives the number ([luai_num2str]). *)
Theorem capability_args_checked :
  forall LU w,
  ((length (stack (L w)) <> 1 \/ exists v, stack (L w) = [v] /\ tostring LU v = None) ->
     (exists msg, luau_file_load LU w = Thrown (VStr msg) w)
     /\ (exists msg, luau_setlocale LU w = Thrown (VStr msg) w))
  /\ (forall n, stack (L w) = [VNum n] ->
     let w' := set_L w (set_stack (L w) [VStr (num2str_impl LU n)]) in
     luau_file_load LU w = luau_file_load LU w'
     /\ luau_setlocale LU w = luau_setlocale LU w').
Proof.
  intros LU [[st g tbl sb cl] ce cb ev nb lv fsys ao lo lc of].
  cbv [L stack]. split.
  - intros [Hn | [v [-> Hv]]].
    + cbv [luau_file_load luau_setlocale bind lua_gettop L stack].
      rewrite (gettop_ne1 st Hn).
      split; eexists; reflexivity.
    + destruct v; try discriminate; split; eexists; reflexivity.
  - intros n ->. split; reflexivity.
Qed.

Lemma capability_args_checked_witness :
  length (stack (L (set_L Toy.w0 (set_stack (L Toy.w0) [])))) <> 1
  /\ stack (L (set_L Toy.w0 (set_stack (L Toy.w0) [VNum 5%float]))) = [VNum 5%float]
  /\ (exists msg, luau_file_load Toy.luau (set_L Toy.w0 (set_stack (L Toy.w0) []))
                  = Thrown (VStr msg) (set_L Toy.w0 (set_stack (L Toy.w0) [])))
  /\ luau_setlocale Toy.luau (set_L Toy.w0 (set_stack (L Toy.w0) [VNum 5%float]))
     = luau_setlocale Toy.luau
         (set_L (set_L Toy.w0 (set_stack (L Toy.w0) [VNum 5%float]))
            (set_stack (L (set_L Toy.w0 (set_stack (L Toy.w0) [VNum 5%float])))
               [VStr (num2str_impl Toy.luau 5%float)])).
Proof.
  split; [vm_compute; discriminate |]. split; [reflexivity |]. split.
  - refine (proj1 (proj1 (capability_args_checked Toy.luau
                              (set_L Toy.w0 (set_stack (L Toy.w0) []))) _)).
    left; vm_compute; discriminate.
  - apply (proj2 (capability_args_checked Toy.luau (set_L Toy.w0 (set_stack (L Toy.w0) [VNum 5%float])))
             5%float);
      reflexivity.
Defined.

(** *** C2 *)

(** C2 (counterexample): [main] checks only [argc < 2]; with two
    positional arguments it creates the VM and runs the first script,
    writes no usage message and exits 0. *)
Lemma main_extra_arg_runs :
  exists w', main Toy.luau ["luau_test"; "two.luau"; "extra"] Toy.w0 = Done 0%Z w'
    /\ In ENewState (events w') /\ cerr w' = "".
Proof.
  eexists; split; [vm_compute; reflexivity |]. split; [left; reflexivity | reflexivity].
Qed.

Lemma str_app_nil_r (s : string) : s ++ EmptyString = s.
Proof. induction s as [|c s IH]; simpl; [reflexivity | now rewrite IH]. Qed.

(** C2 (amended): without a positional argument [main] writes a message
    starting with [Usage: ] (the whole [Usage: <argv[0]> script.luau] line
    when [argv[0]] is there) and returns 1 before any VM exists: the VM
    state and the trace are untouched.  Positional arguments after the
    first are ignored. *)
Theorem main_usage_check :
  forall LU w,
  (forall argv, (length argv < 2)%nat ->
     exists w', main LU argv w = Done 1%Z w'
       /\ L w' = L w /\ events w' = events w
       /\ (cerr_bad w = false -> exists s, cerr w' = cerr w ++ "Usage: " ++ s))
  /\ (forall p, cerr_bad w = false ->
     exists w', main LU [p] w = Done 1%Z w'
       /\ cerr w' = cerr w ++ "Usage: " ++ p ++ " script.luau" ++ String "010" EmptyString)
  /\ (forall p a extra, main LU (p :: a :: extra) w = main LU [p; a] w).
Proof.
  intros LU [v ce cb ev nb lv fsys ao lo lc of]. split; [| split].
  - intros [|p [|a r]] Hl; [| | simpl in Hl; lia]; destruct cb;
      cbv [main length Nat.ltb Nat.leb nth_error cerr_line bind modify ret set_cerr
           cerr_pieces L events cerr cerr_bad];
      eexists; (split; [reflexivity |]); (split; [reflexivity |]); (split; [reflexivity |]);
      intros Hb; try discriminate.
    + exists EmptyString. rewrite str_app_nil_r. reflexivity.
    + exists (p ++ " script.luau" ++ String "010" EmptyString). rewrite !str_app_assoc. reflexivity.
  - intros p Hb. cbv [cerr_bad] in Hb. subst cb.
    cbv [main length Nat.ltb Nat.leb nth_error cerr_line bind modify ret set_cerr
         cerr_pieces L events cerr cerr_bad].
    eexists; (split; [reflexivity |]). rewrite !str_app_assoc. reflexivity.
  - intros p a extra. reflexivity.
Qed.

Lemma main_usage_check_witness :
  (length ["luau_test"] < 2)%nat /\ cerr_bad Toy.w0 = false
  /\ (exists w', main Toy.luau ["luau_test"] Toy.w0 = Done 1%Z w'
       /\ L w' = L Toy.w0 /\ events w' = events Toy.w0
       /\ (cerr_bad Toy.w0 = false -> exists s, cerr w' = cerr Toy.w0 ++ "Usage: " ++ s))
  /\ (exists w', main Toy.luau ["luau_test"] Toy.w0 = Done 1%Z w'
       /\ cerr w' = cerr Toy.w0 ++ "Usage: " ++ "luau_test" ++ " script.luau"
                    ++ String "010" EmptyString).
Proof.
  split; [simpl; lia |]. split; [reflexivity |]. split.
  - apply (proj1 (main_usage_check Toy.luau Toy.w0) ["luau_test"]). simpl. lia.
  - apply (proj1 (proj2 (main_usage_check Toy.luau Toy.w0)) "luau_test"). reflexivity.
Defined.

(** *** C1 *)

(** C1: a script path that cannot be opened is reported on [std::cerr],
    but [load_file_to_string]'s empty result is not checked: [main] goes on
    to compile, load and run the empty source and exits 0. *)
Theorem main_missing_file_runs_empty :
  exists w', main Toy.luau ["luau_test"; "missing.luau"] Toy.w0 = Done 0%Z w'
    /\ cerr w' = "Failed to open file: missing.luau" ++ String "010" EmptyString
    /\ In (EPcall 0 LUA_MULTRET 1 [VFun (FNative "traceback"); VFun (FChunk "missing.luau" "")])
          (events w').
Proof.
  eexists; split; [vm_compute; reflexivity |]. split; [reflexivity |].
  vm_compute. repeat (solve [left; reflexivity] || right).
Qed.

(** ** Witnesses on the concrete instance *)

Lemma exec_success_keeps_results_witness :
  load_impl Toy.luau (cstr "two.luau") (compile_impl Toy.luau "return 1, 2" 1 1)
    = inl (VFun (FChunk "two.luau" "return 1, 2"))
  /\ assoc "debug" (globals (L Toy.w_libs)) = Some (VTable Toy.debug_tbl)
  /\ assoc "traceback" (tables (L Toy.w_libs) Toy.debug_tbl) = Some Toy.traceback
  /\ run_impl Toy.luau
       (set_stack (L Toy.w_libs)
          (stack (L Toy.w_libs) ++ [Toy.traceback; VFun (FChunk "two.luau" "return 1, 2")])%list)
       (VFun (FChunk "two.luau" "return 1, 2")) []
     = (inl [VNum 1; VNum 2],
        snd (run_impl Toy.luau
          (set_stack (L Toy.w_libs)
             (stack (L Toy.w_libs) ++ [Toy.traceback; VFun (FChunk "two.luau" "return 1, 2")])%list)
          (VFun (FChunk "two.luau" "return 1, 2")) []))
  /\ exists w', exec_luau_source Toy.luau "two.luau" "return 1, 2" Toy.w_libs = Done 0%Z w'
    /\ stack (L w') = (stack (L Toy.w_libs) ++ [VNum 1; VNum 2])%list
    /\ closed (L w') = closed (L Toy.w_libs)
    /\ cerr w' = cerr Toy.w_libs
    /\ exists tr, events w' = (events Toy.w_libs ++ tr)%list /\ ~ In EClose tr.
Proof.
  split; [vm_compute; reflexivity |]. split; [vm_compute; reflexivity |].
  split; [vm_compute; reflexivity |]. split; [vm_compute; reflexivity |].
  apply (exec_success_keeps_results Toy.luau Toy.w_libs "two.luau" "return 1, 2"
           (VFun (FChunk "two.luau" "return 1, 2")) Toy.debug_tbl Toy.traceback [VNum 1; VNum 2]
           (snd (run_impl Toy.luau
             (set_stack (L Toy.w_libs)
                (stack (L Toy.w_libs) ++ [Toy.traceback; VFun (FChunk "two.luau" "return 1, 2")])%list)
             (VFun (FChunk "two.luau" "return 1, 2")) [])));
    vm_compute; reflexivity.
Defined.

Lemma exec_error_handler_placement_witness :
  load_impl Toy.luau (cstr "err.luau") (compile_impl Toy.luau "error(1)" 1 1)
    = inl (VFun (FChunk "err.luau" "error(1)"))
  /\ assoc "debug" (globals (L Toy.w_libs)) = Some (VTable Toy.debug_tbl)
  /\ assoc "traceback" (tables (L Toy.w_libs) Toy.debug_tbl) = Some Toy.traceback
  /\ run_impl Toy.luau
       (set_stack (L Toy.w_libs)
          (stack (L Toy.w_libs) ++ [Toy.traceback; VFun (FChunk "err.luau" "error(1)")])%list)
       (VFun (FChunk "err.luau" "error(1)")) []
     = (inr (VStr "script:1: boom"),
        snd (run_impl Toy.luau
          (set_stack (L Toy.w_libs)
             (stack (L Toy.w_libs) ++ [Toy.traceback; VFun (FChunk "err.luau" "error(1)")])%list)
          (VFun (FChunk "err.luau" "error(1)")) []))
  /\ exists r w' tail,
    exec_luau_source Toy.luau "err.luau" "error(1)" Toy.w_libs = Done r w'
    /\ events w' = (events Toy.w_libs ++
         [ECompile (next_buf Toy.w_libs) 1 1; ELoad (cstr "err.luau") (next_buf Toy.w_libs);
          EFree (next_buf Toy.w_libs);
          EGetGlobal "debug" (stack (L Toy.w_libs) ++ [VFun (FChunk "err.luau" "error(1)")]);
          EGetField "traceback"
            (stack (L Toy.w_libs) ++ [VFun (FChunk "err.luau" "error(1)"); VTable Toy.debug_tbl]);
          EPcall 0 LUA_MULTRET (Z.of_nat (length (stack (L Toy.w_libs))) + 1)
            (stack (L Toy.w_libs) ++ [Toy.traceback; VFun (FChunk "err.luau" "error(1)")])]
         ++ tail)%list
    /\ index2value (stack (L Toy.w_libs) ++ [Toy.traceback; VFun (FChunk "err.luau" "error(1)")])%list
         (Z.of_nat (length (stack (L Toy.w_libs))) + 1) = Toy.traceback
    /\ r = 1%Z /\ stack (L w') = (stack (L Toy.w_libs) ++ [Toy.traceback])%list.
Proof.
  split; [vm_compute; reflexivity |]. split; [vm_compute; reflexivity |].
  split; [vm_compute; reflexivity |]. split; [vm_compute; reflexivity |].
  apply (exec_error_handler_placement Toy.luau Toy.w_libs "err.luau" "error(1)"
           (VFun (FChunk "err.luau" "error(1)")) Toy.debug_tbl Toy.traceback
           (inr (VStr "script:1: boom"))
           (snd (run_impl Toy.luau
             (set_stack (L Toy.w_libs)
                (stack (L Toy.w_libs) ++ [Toy.traceback; VFun (FChunk "err.luau" "error(1)")])%list)
             (VFun (FChunk "err.luau" "error(1)")) [])));
    vm_compute; reflexivity.
Defined.

Lemma exec_vm_failure_reported_witness :
  (* a load failure *)
  (cerr_bad Toy.w_libs = false
   /\ load_impl Toy.luau (cstr "bad.luau") (compile_impl Toy.luau "!x" 1 1)
      = inr (VStr "bad.luau:1: syntax error")
   /\ tostring Toy.luau (VStr "bad.luau:1: syntax error") = Some "bad.luau:1: syntax error"
   /\ exists w', exec_luau_source Toy.luau "bad.luau" "!x" Toy.w_libs = Done 1%Z w'
       /\ cerr w' = cerr Toy.w_libs ++ "Load error: " ++ "bad.luau:1: syntax error"
                    ++ String "010" EmptyString
       /\ stack (L w') = stack (L Toy.w_libs)
       /\ closed (L w') = true
       /\ events w' = (events Toy.w_libs ++
            [ECompile (next_buf Toy.w_libs) 1 1; ELoad (cstr "bad.luau") (next_buf Toy.w_libs);
             EFree (next_buf Toy.w_libs); EClose])%list)
  (* a runtime failure *)
  /\ (cerr_bad Toy.w_libs = false
   /\ load_impl Toy.luau (cstr "err.luau") (compile_impl Toy.luau "error(1)" 1 1)
      = inl (VFun (FChunk "err.luau" "error(1)"))
   /\ assoc "debug" (globals (L Toy.w_libs)) = Some (VTable Toy.debug_tbl)
   /\ assoc "traceback" (tables (L Toy.w_libs) Toy.debug_tbl) = Some Toy.traceback
   /\ run_impl Toy.luau
        (set_stack (L Toy.w_libs)
           (stack (L Toy.w_libs) ++ [Toy.traceback; VFun (FChunk "err.luau" "error(1)")])%list)
        (VFun (FChunk "err.luau" "error(1)")) []
      = (inr (VStr "script:1: boom"),
         snd (run_impl Toy.luau
           (set_stack (L Toy.w_libs)
              (stack (L Toy.w_libs) ++ [Toy.traceback; VFun (FChunk "err.luau" "error(1)")])%list)
           (VFun (FChunk "err.luau" "error(1)")) []))
   /\ exists w', exec_luau_source Toy.luau "err.luau" "error(1)" Toy.w_libs = Done 1%Z w'
       /\ cerr w' = cerr Toy.w_libs ++ "Runtime error: "
                    ++ ("script:1: boom" ++ String "010" "stacktrace:") ++ String "010" EmptyString
       /\ stack (L w') = (stack (L Toy.w_libs) ++ [Toy.traceback])%list
       /\ closed (L w') = true
       /\ exists tr, events w' = (events Toy.w_libs ++ tr ++ [EClose])%list)
  (* [main] returns the failure *)
  /\ (load_file_to_string "err.luau" Toy.w_libs
      = Done "error(1)" (res_world (load_file_to_string "err.luau" Toy.w_libs))
   /\ exec_luau_source Toy.luau "err.luau" "error(1)"
        (res_world (load_file_to_string "err.luau" Toy.w_libs))
      = Done 1%Z (res_world (exec_luau_source Toy.luau "err.luau" "error(1)"
                               (res_world (load_file_to_string "err.luau" Toy.w_libs))))
   /\ run_user Toy.luau "err.luau" Toy.w_libs
      = Done 1%Z (res_world (exec_luau_source Toy.luau "err.luau" "error(1)"
                               (res_world (load_file_to_string "err.luau" Toy.w_libs))))).
Proof.
  split; [| split].
  - split; [reflexivity |]. split; [vm_compute; reflexivity |]. split; [reflexivity |].
    apply (proj1 (exec_vm_failure_reported Toy.luau) Toy.w_libs "bad.luau" "!x"
             (VStr "bad.luau:1: syntax error") "bad.luau:1: syntax error");
      vm_compute; reflexivity.
  - split; [reflexivity |]. split; [vm_compute; reflexivity |].
    split; [vm_compute; reflexivity |]. split; [vm_compute; reflexivity |].
    split; [vm_compute; reflexivity |].
    apply (proj1 (proj2 (exec_vm_failure_reported Toy.luau)) Toy.w_libs "err.luau" "error(1)"
             (VFun (FChunk "err.luau" "error(1)")) Toy.debug_tbl Toy.traceback
             (VStr "script:1: boom")
             (snd (run_impl Toy.luau
               (set_stack (L Toy.w_libs)
                  (stack (L Toy.w_libs) ++ [Toy.traceback; VFun (FChunk "err.luau" "error(1)")])%list)
               (VFun (FChunk "err.luau" "error(1)")) []))
             ("script:1: boom" ++ String "010" "stacktrace:"));
      vm_compute; reflexivity.
  - split; [vm_compute; reflexivity |]. split; [vm_compute; reflexivity |].
    apply (proj2 (proj2 (exec_vm_failure_reported Toy.luau)) "err.luau" Toy.w_libs "error(1)"
             (res_world (load_file_to_string "err.luau" Toy.w_libs)));
      vm_compute; reflexivity.
Defined.

(** * Further properties of the host *)

(** ** Pre/post reasoning on finished runs *)

#[export] Instance open_kept_preorder : PreOrder open_kept.
Proof.
  split.
  - intro w. split; reflexivity.
  - intros w1 w2 w3 [G1 C1] [G2 C2]. split; [etransitivity; eassumption | congruence].
Qed.

#[export] Instance quiet_preorder : PreOrder quiet.
Proof.
  split.
  - intro w. split; [reflexivity | split; reflexivity].
  - intros w1 w2 w3 [O1 [C1 B1]] [O2 [C2 B2]].
    split; [etransitivity; eassumption | split; congruence].
Qed.

Lemma quiet_open_kept w w' : quiet w w' -> open_kept w w'.
Proof. intros [O _]. exact O. Qed.

Lemma done_bind {A B} (m : M A) (k : A -> M B) w b w2 :
  bind m k w = Done b w2 -> exists a w1, m w = Done a w1 /\ k a w1 = Done b w2.
Proof. unfold bind. destruct (m w) as [a w1|e w1]; [eauto | discriminate]. Qed.

Lemma stable_done (R : world -> world -> Prop) {A} (m : M A) w a w1 :
  stable R m -> m w = Done a w1 -> R w w1.
Proof. intros S E. specialize (S w). rewrite E in S. exact S. Qed.

Ltac side_q :=
  repeat match goal with |- context [cerr_pieces ?a ?b ?c] => destruct (cerr_pieces a b c) end;
  cbv [quiet open_kept grows set_L set_cerr add_event set_heap set_loc set_open_files
       set_stack after_call events live L closed cerr cerr_bad];
  first
    [ split; [ split; [ exists []; rewrite app_nil_r; split; [reflexivity | constructor]
                      | reflexivity ] | split; reflexivity ]
    | split; [ split; [ eexists [_]; split; [reflexivity | repeat constructor]
                      | reflexivity ] | split; reflexivity ]
    | split; [ exists []; rewrite app_nil_r; split; [reflexivity | constructor] | reflexivity ]
    | split; [ eexists [_]; split; [reflexivity | repeat constructor] | reflexivity ] ].

Ltac stab_q :=
  repeat first
    [ apply stable_bind; [ typeclasses eauto | | intro ]
    | apply stable_ret; typeclasses eauto
    | apply stable_get; typeclasses eauto
    | apply stable_throw; typeclasses eauto
    | apply stable_modify; intro; side_q
    | match goal with |- stable _ (match ?x with _ => _ end) => destruct x end
    | match goal with |- stable _ (if ?x then _ else _) => destruct x end
    | progress cbv zeta
    | progress unfold luau_compile, luau_load, free, lua_pcall, lua_call, lua_setglobal,
        lua_pushcfunction, luaL_newstate, luaL_openlibs, luaL_sandbox, lua_getglobal,
        lua_getfield, lua_remove, lua_insert, lua_gettop, lua_tostring, lua_pop, lua_push,
        cerr_line, modify_stack, emit, luaL_error, setup ].

(** The error report of [exec_luau_source]: read, print, pop, close. *)
Lemma report_done LU p w r w' :
  (s <- lua_tostring LU (-1) ;; cerr_line [Some p; s] ;;; lua_pop 1 ;;; lua_close ;;; ret 1%Z) w
    = Done r w' ->
  r = 1%Z /\ closed (L w') = true
  /\ exists tr, events w' = (events w ++ tr ++ [EClose])%list
                /\ Forall (fun e => is_close e = false) tr.
Proof.
  intro H.
  apply done_bind in H as [s [w1 [H1 H]]].
  assert (O1 : open_kept w w1) by (eapply stable_done; [| exact H1]; stab_q).
  apply done_bind in H as [[] [w2 [H2 H]]].
  assert (O2 : open_kept w1 w2) by (eapply stable_done; [| exact H2]; stab_q).
  apply done_bind in H as [[] [w3 [H3 H]]].
  assert (O3 : open_kept w2 w3) by (eapply stable_done; [| exact H3]; stab_q).
  apply done_bind in H as [[] [w4 [H4 H]]].
  cbv [lua_close bind modify emit ret] in H4, H. injection H4 as <-. injection H as <- <-.
  split; [reflexivity |]. split; [reflexivity |].
  assert (O : open_kept w w3) by (do 2 (etransitivity; [eassumption |]); assumption).
  destruct O as [[tr [E F]] _]. exists tr. split; [| exact F].
  transitivity (events w3 ++ [EClose])%list; [destruct w3; reflexivity |].
  rewrite E, <- app_assoc. reflexivity.
Qed.

(** Every run of [exec_luau_source] that returns either returns 0, wrote
    nothing and left the session open, or returns 1 with the session closed
    exactly once, as the last event. *)
Lemma exec_done LU name src w r w' :
  exec_luau_source LU name src w = Done r w' ->
  (r = 0%Z /\ quiet w w')
  \/ (r = 1%Z /\ closed (L w') = true
      /\ exists tr, events w' = (events w ++ tr ++ [EClose])%list
                    /\ Forall (fun e => is_close e = false) tr).
Proof.
  intro H. unfold exec_luau_source in H.
  apply done_bind in H as [[b bc] [w1 [H1 H]]].
  assert (Q1 : quiet w w1) by (eapply stable_done; [| exact H1]; stab_q).
  cbv beta iota in H.
  apply done_bind in H as [lr [w2 [H2 H]]].
  assert (Q2 : quiet w1 w2) by (eapply stable_done; [| exact H2]; stab_q).
  apply done_bind in H as [[] [w3 [H3 H]]].
  assert (Q3 : quiet w2 w3) by (eapply stable_done; [| exact H3]; stab_q).
  assert (Q : quiet w w3) by (do 2 (etransitivity; [eassumption |]); assumption).
  clear Q1 Q2 Q3 H1 H2 H3.
  destruct (negb (lr =? 0)%Z).
  - apply report_done in H as [-> [Hc [tr [E F]]]]. right.
    destruct Q as [[[tr0 [E0 F0]] _] _].
    split; [reflexivity |]. split; [exact Hc |].
    exists (tr0 ++ tr)%list. rewrite E, E0, <- !app_assoc.
    split; [reflexivity | apply Forall_app; split; assumption].
  - apply done_bind in H as [[] [w4 [H4 H]]].
    assert (Q4 : quiet w3 w4) by (eapply stable_done; [| exact H4]; stab_q).
    apply done_bind in H as [[] [w5 [H5 H]]].
    assert (Q5 : quiet w4 w5) by (eapply stable_done; [| exact H5]; stab_q).
    apply done_bind in H as [[] [w6 [H6 H]]].
    assert (Q6 : quiet w5 w6) by (eapply stable_done; [| exact H6]; stab_q).
    apply done_bind in H as [[] [w7 [H7 H]]].
    assert (Q7 : quiet w6 w7) by (eapply stable_done; [| exact H7]; stab_q).
    apply done_bind in H as [top [w8 [H8 H]]].
    assert (Q8 : quiet w7 w8) by (eapply stable_done; [| exact H8]; stab_q).
    cbv zeta in H.
    apply done_bind in H as [r0 [w9 [H9 H]]].
    assert (Q9 : quiet w8 w9) by (eapply stable_done; [| exact H9]; stab_q).
    assert (Q' : quiet w w9) by (do 6 (etransitivity; [eassumption |]); assumption).
    clear Q Q4 Q5 Q6 Q7 Q8 Q9 H4 H5 H6 H7 H8 H9.
    destruct (negb (r0 =? 0)%Z).
    + apply report_done in H as [-> [Hc [tr [E F]]]]. right.
      destruct Q' as [[[tr0 [E0 F0]] _] _].
      split; [reflexivity |]. split; [exact Hc |].
      exists (tr0 ++ tr)%list. rewrite E, E0, <- !app_assoc.
      split; [reflexivity | apply Forall_app; split; assumption].
    + apply done_bind in H as [[] [w10 [H10 H]]].
      assert (Q10 : quiet w9 w10) by (eapply stable_done; [| exact H10]; stab_q).
      cbv [ret] in H. injection H as <- <-. left. split; [reflexivity |].
      etransitivity; eassumption.
Qed.

Lemma setup_no_close LU : stable (grows (fun e => is_close e = false)) (setup LU).
Proof. unfold setup. stab. Qed.

Lemma load_file_open_kept fname : stable open_kept (load_file_to_string fname).
Proof. unfold load_file_to_string. stab_q. Qed.

Lemma run_user_done LU fname w r w' :
  run_user LU fname w = Done r w' ->
  (r = 0%Z \/ r = 1%Z) /\ closed (L w') = true
  /\ exists tr, events w' = (events w ++ tr ++ [EClose])%list
                /\ Forall (fun e => is_close e = false) tr.
Proof.
  intro H. unfold run_user in H.
  apply done_bind in H as [src [w1 [H1 H]]].
  pose proof (stable_done _ _ _ _ _ (load_file_open_kept fname) H1) as [[tr1 [E1 F1]] _].
  apply done_bind in H as [r0 [w2 [H2 H]]].
  destruct (exec_done _ _ _ _ _ _ H2) as [[-> [[[tr2 [E2 F2]] C2] _]] | [-> [C2 [tr2 [E2 F2]]]]].
  - cbv [negb Z.eqb ret] in H.
    apply done_bind in H as [[] [w3 [H3 H]]].
    cbv [lua_close bind modify emit ret] in H3, H. injection H3 as <-. injection H as <- <-.
    split; [left; reflexivity |]. split; [reflexivity |].
    exists (tr1 ++ tr2)%list. split; [| apply Forall_app; split; assumption].
    transitivity (events w2 ++ [EClose])%list; [destruct w2; reflexivity |].
    rewrite E2, E1, <- !app_assoc. reflexivity.
  - cbv [negb Z.eqb Pos.eqb ret] in H. injection H as <- <-.
    split; [right; reflexivity |]. split; [exact C2 |].
    exists (tr1 ++ tr2)%list. split; [| apply Forall_app; split; assumption].
    rewrite E2, E1, <- !app_assoc. reflexivity.
Qed.

(** X1: a run of [main] with a script argument that returns (no unprotected
    Lua error) returns 0 or 1 and has closed the VM session exactly once,
    as its very last action. *)
Theorem main_closes_session_once :
  forall LU argv w r w',
  (2 <= length argv)%nat ->
  main LU argv w = Done r w' ->
  (r = 0%Z \/ r = 1%Z) /\ closed (L w') = true
  /\ exists tr, events w' = (events w ++ tr ++ [EClose])%list
                /\ Forall (fun e => is_close e = false) tr.
Proof.
  intros LU argv w r w' Hlen H. unfold main in H.
  replace (length argv <? 2)%nat with false in H by (symmetry; apply Nat.ltb_ge; exact Hlen).
  apply done_bind in H as [[] [w1 [H1 H]]].
  pose proof (stable_done _ _ _ _ _ (setup_no_close LU) H1) as [tr1 [E1 F1]].
  apply run_user_done in H as [Hr [Hc [tr2 [E2 F2]]]].
  split; [exact Hr |]. split; [exact Hc |].
  exists (tr1 ++ tr2)%list. split; [| apply Forall_app; split; assumption].
  rewrite E2, E1, <- !app_assoc. reflexivity.
Qed.

Lemma setup_keeps_cerr_fs LU w :
  exists w', setup LU w = Done tt w'
    /\ cerr w' = cerr w /\ cerr_bad w' = cerr_bad w /\ fs w' = fs w.
Proof.
  run. destruct (openlibs_impl LU (newstate_impl LU)) as [st g t sb cl].
  rewrite nth_snoc, skip_snoc0.
  destruct (native_impl LU "luaopen_cjson" _ []) as [rs v']. run.
  rewrite pop_snoc0, adjust0, app_nil_r, nth_snoc, skip_snoc0.
  destruct (native_impl LU "luaopen_cjson_safe" _ []) as [rs' v'']. run.
  eexists; split; [reflexivity |]. destruct w. repeat split.
Qed.

Lemma load_file_found fname w data :
  fs w (cstr fname) = Some data ->
  load_file_to_string fname w = Done data (add_event w (EReadScript fname)).
Proof.
  intro H. unfold load_file_to_string, bind, emit, modify, get.
  replace (fs (add_event w (EReadScript fname)) (cstr fname)) with (Some data)
    by (destruct w; exact (eq_sym H)).
  reflexivity.
Qed.

(** X2: when the script file can be opened, a run of [main] that returns 0
    has written nothing to [std::cerr]. *)
Theorem main_success_is_silent :
  forall LU argv w fname data w',
  nth_error argv 1 = Some fname ->
  fs w (cstr fname) = Some data ->
  main LU argv w = Done 0%Z w' ->
  cerr w' = cerr w /\ cerr_bad w' = cerr_bad w.
Proof.
  intros LU argv w fname data w' Ha Hf H. unfold main in H.
  assert (Hlen : (2 <= length argv)%nat)
    by (assert (Hs : nth_error argv 1 <> None) by congruence;
        apply nth_error_Some in Hs; lia).
  replace (length argv <? 2)%nat with false in H by (symmetry; apply Nat.ltb_ge; exact Hlen).
  destruct (setup_keeps_cerr_fs LU w) as [w1 [E1 [C1 [B1 F1]]]].
  rewrite (bind_Done _ _ _ _ _ E1), Ha in H. unfold run_user in H.
  rewrite (bind_Done _ _ _ _ _ (load_file_found fname w1 data ltac:(rewrite F1; exact Hf))) in H.
  apply done_bind in H as [r0 [w2 [H2 H]]].
  destruct (exec_done _ _ _ _ _ _ H2) as [[-> [_ [C2 B2]]] | [-> _]].
  - cbv [negb Z.eqb] in H.
    apply done_bind in H as [[] [w3 [H3 H]]].
    cbv [lua_close bind modify emit ret] in H3, H. injection H3 as <-. injection H as <-.
    rewrite <- C1, <- B1. destruct w1, w2. cbv in C2, B2 |- *. split; assumption.
  - cbv [negb Z.eqb Pos.eqb ret] in H. discriminate.
Qed.

(** X5: when the [malloc] of the file size fails, [luau_file_load] raises
    [can not allocate <size> bytes]; the file opened by [fopen] is never
    closed (one more open file afterwards). *)
Theorem file_load_nomem_leaks_file :
  forall LU w a data,
  stack (L w) = [VStr a] ->
  fs w (cstr a) = Some data ->
  alloc_ok w (String.length data) = false ->
  luau_file_load LU w
  = Thrown (VStr (where_impl LU (L w)
                  ++ substring 0 (LUA_BUFFERSIZE - 1)
                       ("luau_file_load: can not allocate " ++ dec (String.length data) ++ " bytes")))
           (set_open_files w (S (open_files w))).
Proof.
  intros LU [[st g tbl sb cl] ce cb ev nb lv fsys ao lo lc of] a data Hst Hfs Hal.
  cbv [L stack fs alloc_ok] in *. subst st.
  cbv [luau_file_load luaL_error set_open_files]. run. cbn -[String.append num2str dec].
  rewrite Hfs. cbn -[String.append num2str dec]. rewrite Hal. reflexivity.
Qed.

(** X7: [setup] leaves the VM stack as [luaL_openlibs] left it (the
    results of the two [luaopen_*] calls are dropped, the pushed host
    functions popped by [lua_setglobal]), binds the globals
    [luau_file_load] and [luau_setlocale] to the host functions, marks the
    VM sandboxed and writes nothing, provided [luaL_sandbox] itself keeps
    the stack and the globals. *)
Theorem setup_balanced_and_bound :
  forall LU w,
  (forall v, stack (sandbox_impl LU v) = stack v /\ globals (sandbox_impl LU v) = globals v) ->
  exists w', setup LU w = Done tt w'
    /\ stack (L w') = stack (openlibs_impl LU (newstate_impl LU))
    /\ assoc "luau_file_load" (globals (L w')) = Some (VFun (FNative "luau_file_load"))
    /\ assoc "luau_setlocale" (globals (L w')) = Some (VFun (FNative "luau_setlocale"))
    /\ sandboxed (L w') = true
    /\ cerr w' = cerr w /\ cerr_bad w' = cerr_bad w.
Proof.
  intros LU w Hsb.
  run. destruct (openlibs_impl LU (newstate_impl LU)) as [st g t sb cl].
  rewrite nth_snoc, skip_snoc0.
  destruct (native_impl LU "luaopen_cjson" _ []) as [rs v']. run.
  rewrite pop_snoc0, adjust0, app_nil_r, nth_snoc, skip_snoc0.
  destruct (native_impl LU "luaopen_cjson_safe" _ []) as [rs' v'']. run.
  rewrite pop_snoc0, adjust0, app_nil_r, !index2value_top, ?pop1.
  match goal with |- context [sandbox_impl LU ?v] => destruct (Hsb v) as [Hs Hg] end.
  eexists; split; [reflexivity |].
  cbv [L stack globals sandboxed cerr cerr_bad] in *. rewrite Hs, Hg.
  destruct w. repeat split.
Qed.

(** ** Witnesses of the further properties *)

Lemma main_closes_session_once_witness :
  (2 <= length ["luau_test"; "two.luau"])%nat
  /\ main Toy.luau ["luau_test"; "two.luau"] Toy.w0
     = Done 0%Z (res_world (main Toy.luau ["luau_test"; "two.luau"] Toy.w0))
  /\ ((0 = 0 \/ 0 = 1)%Z
      /\ closed (L (res_world (main Toy.luau ["luau_test"; "two.luau"] Toy.w0))) = true
      /\ exists tr, events (res_world (main Toy.luau ["luau_test"; "two.luau"] Toy.w0))
                    = (events Toy.w0 ++ tr ++ [EClose])%list
                    /\ Forall (fun e => is_close e = false) tr).
Proof.
  split; [simpl; lia |]. split; [vm_compute; reflexivity |].
  apply (main_closes_session_once Toy.luau ["luau_test"; "two.luau"] Toy.w0 0%Z
           (res_world (main Toy.luau ["luau_test"; "two.luau"] Toy.w0)));
    [simpl; lia | vm_compute; reflexivity].
Defined.

Lemma main_success_is_silent_witness :
  nth_error ["luau_test"; "two.luau"] 1 = Some "two.luau"
  /\ fs Toy.w0 (cstr "two.luau") = Some "return 1, 2"
  /\ main Toy.luau ["luau_test"; "two.luau"] Toy.w0
     = Done 0%Z (res_world (main Toy.luau ["luau_test"; "two.luau"] Toy.w0))
  /\ cerr (res_world (main Toy.luau ["luau_test"; "two.luau"] Toy.w0)) = cerr Toy.w0
  /\ cerr_bad (res_world (main Toy.luau ["luau_test"; "two.luau"] Toy.w0)) = cerr_bad Toy.w0.
Proof.
  split; [reflexivity |]. split; [vm_compute; reflexivity |].
  split; [vm_compute; reflexivity |].
  apply (main_success_is_silent Toy.luau ["luau_test"; "two.luau"] Toy.w0 "two.luau"
           "return 1, 2" (res_world (main Toy.luau ["luau_test"; "two.luau"] Toy.w0)));
    vm_compute; reflexivity.
Defined.

Lemma file_load_nomem_leaks_file_witness :
  stack (L (set_L Toy.w_nomem (set_stack (L Toy.w_nomem) [VStr "two.luau"]))) = [VStr "two.luau"]
  /\ fs Toy.w_nomem (cstr "two.luau") = Some "return 1, 2"
  /\ alloc_ok Toy.w_nomem (String.length "return 1, 2") = false
  /\ luau_file_load Toy.luau (set_L Toy.w_nomem (set_stack (L Toy.w_nomem) [VStr "two.luau"]))
     = Thrown (VStr (where_impl Toy.luau
                       (L (set_L Toy.w_nomem (set_stack (L Toy.w_nomem) [VStr "two.luau"])))
                     ++ substring 0 (LUA_BUFFERSIZE - 1)
                          ("luau_file_load: can not allocate "
                           ++ dec (String.length "return 1, 2") ++ " bytes")))
              (set_open_files (set_L Toy.w_nomem (set_stack (L Toy.w_nomem) [VStr "two.luau"]))
                 (S (open_files Toy.w_nomem))).
Proof.
  split; [reflexivity |]. split; [vm_compute; reflexivity |]. split; [reflexivity |].
  apply (file_load_nomem_leaks_file Toy.luau
           (set_L Toy.w_nomem (set_stack (L Toy.w_nomem) [VStr "two.luau"]))
           "two.luau" "return 1, 2"); vm_compute; reflexivity.
Defined.


Lemma setup_balanced_and_bound_witness :
  (forall v, stack (sandbox_impl Toy.luau v) = stack v
             /\ globals (sandbox_impl Toy.luau v) = globals v)
  /\ exists w', setup Toy.luau Toy.w0 = Done tt w'
    /\ stack (L w') = stack (openlibs_impl Toy.luau (newstate_impl Toy.luau))
    /\ assoc "luau_file_load" (globals (L w')) = Some (VFun (FNative "luau_file_load"))
    /\ assoc "luau_setlocale" (globals (L w')) = Some (VFun (FNative "luau_setlocale"))
    /\ sandboxed (L w') = true
    /\ cerr w' = cerr Toy.w0 /\ cerr_bad w' = cerr_bad Toy.w0.
Proof.
  split; [intro v; split; reflexivity |].
  apply (setup_balanced_and_bound Toy.luau Toy.w0). intro v; split; reflexivity.
Defined.
